(** * Finance loan chatbot: the tool layer, the session store and the
      call orchestrator of [main.py], embedded and verified.

    The module globals [loan_data] and [sessions] are threaded explicitly;
    Python exceptions are an [outcome]; the LangChain agent and the random
    session identifier, which live outside [main.py], are parameters. *)

From Stdlib Require Import ZArith Floats.SpecFloat.
From stdpp Require Import base option strings list gmap fin_maps.

#[local] Set Warnings "-register-all".

Local Open Scope string_scope.
Local Open Scope list_scope.
Local Open Scope Z_scope.

(** ** Values

    [json.load] yields [None], [bool], [int], [float], [str], [list] and
    [dict] values. *)

Inductive json : Type :=
| JNull
| JBool (b : bool)
| JInt (n : Z)
| JFloat (x : spec_float)
| JStr (s : string)
| JArr (items : list json)
| JObj (fields : gmap string json).

(** A Python [dict] with string keys, as the tools receive and return it. *)
Abbreviation dict := (gmap string json).

(** ** Exceptions *)

Inductive exn : Type :=
| KeyError (key : string)
| HTTPException (status_code : Z) (detail : string)
| LibraryError (name : string).

Inductive outcome (A : Type) : Type :=
| Returned (a : A)
| Raised (e : exn).

Arguments Returned {A} a.
Arguments Raised {A} e.

(** ** Messages *)

Inductive content : Type :=
| Text (s : string)
| Blocks (bs : list json).

Record ToolCall : Type := {
  tc_name : string;
  tc_args : dict;
  tc_id : string
}.

Inductive BaseMessage : Type :=
| HumanMessage (c : content)
| AIMessage (c : content) (tool_calls : list ToolCall)
| ToolMessage (c : content) (tool_call_id : string)
| SystemMessage (c : content).

Abbreviation SessionHistory := (list BaseMessage).

(** ** Module globals *)

Record globals : Type := {
  loan_data : gmap string dict;
  sessions : gmap string SessionHistory
}.

(** A computation of [main.py]: it reads and writes the globals and either
    returns or raises; what was written before a raise stays written. *)
Definition Py (A : Type) : Type := globals -> outcome A * globals.

Definition ret {A} (a : A) : Py A := fun g => (Returned a, g).

Definition raise {A} (e : exn) : Py A := fun g => (Raised e, g).

Definition bind {A B} (m : Py A) (k : A -> Py B) : Py B :=
  fun g =>
    match m g with
    | (Returned a, g') => k a g'
    | (Raised e, g') => (Raised e, g')
    end.

Definition read_loan_data : Py (gmap string dict) :=
  fun g => (Returned (loan_data g), g).

Definition read_sessions : Py (gmap string SessionHistory) :=
  fun g => (Returned (sessions g), g).

Definition write_sessions (s : gmap string SessionHistory) : Py unit :=
  fun g => (Returned tt, {| loan_data := loan_data g; sessions := s |}).

Declare Scope py_scope.
Delimit Scope py_scope with py.
Notation "x <- m ;; k" := (bind m (fun x => k))
  (at level 100, m at next level, right associativity) : py_scope.
Notation "m ;;; k" := (bind m (fun _ => k))
  (at level 100, right associativity) : py_scope.
Local Open Scope py_scope.

(** ** Python primitives used by the tools *)

(** [d[key]]: raises [KeyError] on a missing key. *)
Definition getitem (d : dict) (key : string) : Py json :=
  match d !! key with
  | Some v => ret v
  | None => raise (KeyError key)
  end.

(** [not r] for a dict [r]: the empty dict is falsy. *)
Definition dict_falsy (r : dict) : bool := Nat.eqb (size r) 0.

(** [v != s] for [v] the result of [dict.get] and [s] a [str]: only a
    [str] with the same characters equals [s]. *)
Definition ne_str (v : option json) (s : string) : bool :=
  match v with
  | Some (JStr t) => negb (String.eqb t s)
  | _ => true
  end.

(** The string held by an [Optional[str]] that Python counts as true;
    [None] and the empty string are falsy. *)
Definition nonempty (o : option string) : option string :=
  match o with
  | Some (String a s) => Some (String a s)
  | _ => None
  end.

(** ** Tools *)

Definition customer_not_found : dict :=
  {[ "error" := JStr "Customer ID not found" ]}.

Definition no_due_amount : dict :=
  {[ "error" := JStr "No due amount found." ]}.

Definition get_customer_details (customer_id : string) : Py dict :=
  data <- read_loan_data ;;
  ret (default customer_not_found (data !! customer_id)).

Definition get_loan_details (customer_id customer_name : string) : Py dict :=
  data <- read_loan_data ;;
  match data !! customer_id with
  | None => ret no_due_amount
  | Some record =>
      if dict_falsy record || ne_str (record !! "customer_name") customer_name
      then ret no_due_amount
      else
        name <- getitem record "customer_name" ;;
        total <- getitem record "total_due" ;;
        due <- getitem record "due_date" ;;
        ret (<["customer_name" := name]>
              (<["total_due" := total]>
                (<["due_date" := due]>
                  {[ "dpd" := default (JInt 0) (record !! "dpd") ]})))
  end.

Definition record_commitment (customer_id commitment_date : string) : Py string :=
  ret ("Commitment for " +:+ customer_id +:+ " noted.").

(** ** The agent and the session store *)

(** What [agent.invoke] hands back: the state's message list, or an
    exception of the agent library or of the model client. *)
Inductive invoke_result : Type :=
| InvokeState (messages : SessionHistory)
| InvokeRaised (name : string).

Record ChatRequest : Type := {
  session_id : option string;
  customer_id : option string;
  message : option string;
  new_call : bool
}.

Record ChatResponse : Type := {
  resp_session_id : string;
  reply : string
}.

Definition fallback_reply : string :=
  "I'm sorry, I couldn't generate a response.".

Definition customer_id_required : exn :=
  HTTPException 400 "customer_id is required to start a new call.".

Definition message_required : exn :=
  HTTPException 400
    "Either new_call must be true or a message must be provided.".

Definition init_text (cid : string) : string :=
  "Start an outbound collection call for customer id " +:+ cid +:+ ". "
  +:+ "First, look up their details using tools if needed, then say: "
  +:+ "'Hello, this is Jiya calling from ABC Finance. Am I speaking with <customer_name>?'".

(** [o or d] for an [Optional[str]] [o]. *)
Definition or_else (o : option string) (d : string) : string :=
  default d (nonempty o).

(** [not history] for a list. *)
Definition list_falsy (history : SessionHistory) : bool :=
  match history with
  | [] => true
  | _ :: _ => false
  end.

(** The loop of [extract_last_ai_reply] over [reversed(history)]. *)
Fixpoint first_ai (msgs : SessionHistory) : option content :=
  match msgs with
  | [] => None
  | AIMessage c _ :: _ => Some c
  | _ :: rest => first_ai rest
  end.

Section Orchestrator.

(** [str] of a content that is a list of blocks (Python's [repr]). *)
Variable py_repr : list json -> string.

(** [agent.invoke]: the compiled LangChain agent. Its tools read
    [loan_data]; nothing in it reaches [sessions]. *)
Variable agent_invoke : gmap string dict -> SessionHistory -> invoke_result.

(** A fresh [str(uuid.uuid4())], drawn when the request names no session. *)
Variable fresh_uuid : string.

Definition py_str (c : content) : string :=
  match c with
  | Text s => s
  | Blocks bs => py_repr bs
  end.

Definition run_agent_with_history (history : SessionHistory) : Py SessionHistory :=
  data <- read_loan_data ;;
  match agent_invoke data history with
  | InvokeState messages => ret messages
  | InvokeRaised name => raise (LibraryError name)
  end.

Definition extract_last_ai_reply (history : SessionHistory) : string :=
  match first_ai (rev history) with
  | Some c => py_str c
  | None => fallback_reply
  end.

(** Lines 173-194 of [chat_endpoint]: the history handed to the agent.
    On the continuing path [history] is the very list held in
    [sessions], so [history.append] updates the store in place. *)
Definition select_history (sid : string) (payload : ChatRequest) : Py SessionHistory :=
  store <- read_sessions ;;
  let history := default [] (store !! sid) in
  if new_call payload || list_falsy history then
    match nonempty (customer_id payload) with
    | None => raise customer_id_required
    | Some cid => ret [HumanMessage (Text (init_text cid))]
    end
  else
    match nonempty (message payload) with
    | Some text =>
        let history' := history ++ [HumanMessage (Text text)] in
        write_sessions (<[sid := history']> store) ;;;
        ret history'
    | None => raise message_required
    end.

(** Lines 196-201 of [chat_endpoint]: run the agent on the selected
    history, store what it returns, extract the reply. *)
Definition run_and_store (sid : string) (history : SessionHistory) : Py ChatResponse :=
  history <- run_agent_with_history history ;;
  store <- read_sessions ;;
  write_sessions (<[sid := history]> store) ;;;
  ret {| resp_session_id := sid; reply := extract_last_ai_reply history |}.

Definition chat_endpoint (payload : ChatRequest) : Py ChatResponse :=
  let sid := or_else (session_id payload) fresh_uuid in
  history <- select_history sid payload ;;
  run_and_store sid history.

End Orchestrator.

(** ** Vocabulary of the properties *)

(** The record stored for [cid] names the customer [name]. *)
Definition name_matches (g : globals) (cid name : string) : Prop :=
  exists r, loan_data g !! cid = Some r /\ r !! "customer_name" = Some (JStr name).

(** The record carries the loan fields that [get_loan_details] reads by
    subscript ([dpd] is optional: it is read with a default). *)
Definition has_loan_fields (r : dict) : Prop :=
  is_Some (r !! "total_due") /\ is_Some (r !! "due_date").

(** [p] is the loan payload of the record [r]. *)
Definition is_loan_payload (r p : dict) : Prop :=
  dom p = {[ "customer_name"; "total_due"; "due_date"; "dpd" ]}
  /\ p !! "customer_name" = r !! "customer_name"
  /\ p !! "total_due" = r !! "total_due"
  /\ p !! "due_date" = r !! "due_date"
  /\ p !! "dpd" = Some (default (JInt 0) (r !! "dpd")).

(** The reading of [get_customer_details] that hands out name fields
    only, as the specification words it. *)
Definition names_only_lookup : Prop :=
  forall g cid r,
    loan_data g !! cid = Some r ->
    exists p,
      get_customer_details cid g = (Returned p, g)
      /\ p !! "customer_name" = r !! "customer_name"
      /\ p !! "total_due" = None
      /\ p !! "due_date" = None.

(** A run of lookups, one after the other. *)
Fixpoint lookups (cids : list string) : Py (list dict) :=
  match cids with
  | [] => ret []
  | cid :: rest =>
      p <- get_customer_details cid ;;
      ps <- lookups rest ;;
      ret (p :: ps)
  end.

Definition is_ai (m : BaseMessage) : bool :=
  match m with
  | AIMessage _ _ => true
  | _ => false
  end.

(** A field of the request that is missing: [None] or the empty string,
    the values for which [not field] holds. *)
Definition absent (o : option string) : Prop := nonempty o = None.

(** The conversation stored for [sid]; [sessions.get(sid, [])]. *)
Definition stored (g : globals) (sid : string) : SessionHistory :=
  default [] (sessions g !! sid).

Definition on_new_call_path (g : globals) (payload : ChatRequest) (sid : string) : Prop :=
  new_call payload = true \/ stored g sid = [].

Definition on_continuing_path (g : globals) (payload : ChatRequest) (sid : string) : Prop :=
  new_call payload = false /\ stored g sid <> [].

(** The endpoint fails with HTTP 400. *)
Definition invalid_request {A} (o : outcome A) : Prop :=
  exists detail, o = Raised (HTTPException 400 detail).

Definition seed_turn (cid : string) : BaseMessage :=
  HumanMessage (Text (init_text cid)).

Definition set_sessions (s : gmap string SessionHistory) (g : globals) : globals :=
  {| loan_data := loan_data g; sessions := s |}.



(** ** Sample data: the record of the specification's scenario *)

Definition asha : dict :=
  <["customer_name" := JStr "Asha Rao"]>
    (<["total_due" := JInt 4500]>
      {[ "due_date" := JStr "2024-05-01" ]}).

Definition sample_history : SessionHistory :=
  [ seed_turn "C1001";
    AIMessage (Text EmptyString)
      [ {| tc_name := "get_customer_details";
           tc_args := {[ "customer_id" := JStr "C1001" ]};
           tc_id := "call_1" |} ];
    ToolMessage (Text "Asha Rao") "call_1";
    AIMessage (Text "Hello, this is Jiya calling from ABC Finance. Am I speaking with Asha Rao?") [] ].

Definition sample : globals :=
  {| loan_data := {[ "C1001" := asha ]};
     sessions := {[ "s-1" := sample_history ]} |}.

(** An agent that answers every history with one more agent turn. *)
Definition echo_agent (data : gmap string dict) (history : SessionHistory) : invoke_result :=
  InvokeState (history ++ [AIMessage (Text "Hello") []])%list.

Definition sample_repr (bs : list json) : string := "[...]".

(** The reading of the unknown-session boundary under which such a
    request is never refused, as the specification words it. *)
Definition unknown_session_never_refused : Prop :=
  forall (py_repr : list json -> string)
         (agent_invoke : gmap string dict -> SessionHistory -> invoke_result)
         (fresh_uuid : string) (g : globals) (payload : ChatRequest) (sid : string),
    session_id payload = Some sid ->
    sessions g !! sid = None ->
    ~ absent (message payload) ->
    new_call payload = false ->
    ~ invalid_request (fst (chat_endpoint py_repr agent_invoke fresh_uuid payload g)).

(** Sample requests. *)

Definition start_call : ChatRequest :=
  {| session_id := None; customer_id := Some "C1001";
     message := None; new_call := true |}.

Definition restart_call : ChatRequest :=
  {| session_id := Some "s-1"; customer_id := Some "C1001";
     message := None; new_call := true |}.

Definition say_yes : ChatRequest :=
  {| session_id := Some "s-1"; customer_id := None;
     message := Some "yes"; new_call := false |}.

Definition say_nothing : ChatRequest :=
  {| session_id := Some "s-1"; customer_id := None;
     message := None; new_call := false |}.

Definition stray_message : ChatRequest :=
  {| session_id := Some "s-9"; customer_id := None;
     message := Some "hello"; new_call := false |}.

Definition stray_message_with_id : ChatRequest :=
  {| session_id := Some "s-9"; customer_id := Some "C1001";
     message := Some "hello"; new_call := false |}.

(** ** The tool layer as the agent drives it *)

(** A call of one of the three entries of [tools], with its arguments. *)
Inductive invocation : Type :=
| CustomerDetails (cid : string)
| LoanDetails (cid name : string)
| Commitment (cid date : string).

(** What a tool hands back: a [dict] or a [str]. *)
Inductive tool_value : Type :=
| DictValue (d : dict)
| StrValue (s : string).

Definition run_tool (i : invocation) : Py tool_value :=
  match i with
  | CustomerDetails cid => d <- get_customer_details cid ;; ret (DictValue d)
  | LoanDetails cid name => d <- get_loan_details cid name ;; ret (DictValue d)
  | Commitment cid date => s <- record_commitment cid date ;; ret (StrValue s)
  end.

(** The globals after a run of tool calls, each started where the one
    before it stopped, whether that one returned or raised. *)
Definition after_tools (calls : list invocation) (g : globals) : globals :=
  fold_left (fun g' i => snd (run_tool i g')) calls g.

(** An agent that hands back the messages it was given, followed by the
    ones it produced. *)
Definition extending
    (agent_invoke : gmap string dict -> SessionHistory -> invoke_result) : Prop :=
  forall data h messages,
    agent_invoke data h = InvokeState messages -> h `prefix_of` messages.

(** No stored conversation is empty. *)
Definition sessions_nonempty (g : globals) : Prop :=
  forall sid h, sessions g !! sid = Some h -> h <> [].

(** A store whose one record names its customer and nothing else. *)
Definition incomplete : globals :=
  {| loan_data := {[ "C3003" := {[ "customer_name" := JStr "Ravi Kumar" ]} ]};
     sessions := ∅ |}.

(** An agent whose model cannot be reached. *)
Definition failing_agent (data : gmap string dict) (history : SessionHistory) : invoke_result :=
  InvokeRaised "APIConnectionError".

(** The four courses a request can take through [chat_endpoint]. *)
Inductive course
    (py_repr : list json -> string)
    (agent_invoke : gmap string dict -> SessionHistory -> invoke_result)
    (fresh_uuid : string)
    (g : globals) (payload : ChatRequest) (sid : string) : Prop :=
| RefusedNoCustomer :
    on_new_call_path g payload sid ->
    absent (customer_id payload) ->
    chat_endpoint py_repr agent_invoke fresh_uuid payload g
    = (Raised customer_id_required, g) ->
    course py_repr agent_invoke fresh_uuid g payload sid
| Seeded (cid : string) :
    on_new_call_path g payload sid ->
    nonempty (customer_id payload) = Some cid ->
    select_history sid payload g = (Returned [seed_turn cid], g) ->
    chat_endpoint py_repr agent_invoke fresh_uuid payload g
    = run_and_store py_repr agent_invoke sid [seed_turn cid] g ->
    course py_repr agent_invoke fresh_uuid g payload sid
| RefusedNoMessage :
    on_continuing_path g payload sid ->
    absent (message payload) ->
    chat_endpoint py_repr agent_invoke fresh_uuid payload g
    = (Raised message_required, g) ->
    course py_repr agent_invoke fresh_uuid g payload sid
| Appended (text : string) :
    on_continuing_path g payload sid ->
    nonempty (message payload) = Some text ->
    select_history sid payload g
    = (Returned (stored g sid ++ [HumanMessage (Text text)]),
       set_sessions (<[sid := stored g sid ++ [HumanMessage (Text text)]]> (sessions g)) g) ->
    chat_endpoint py_repr agent_invoke fresh_uuid payload g
    = run_and_store py_repr agent_invoke sid
        (stored g sid ++ [HumanMessage (Text text)])
        (set_sessions (<[sid := stored g sid ++ [HumanMessage (Text text)]]> (sessions g)) g) ->
    course py_repr agent_invoke fresh_uuid g payload sid.

Definition say_yes_with_id : ChatRequest :=
  {| session_id := Some "s-1"; customer_id := Some "C2002";
     message := Some "yes"; new_call := false |}.

(** Where [restart_call] leaves the sample store with the echoing agent. *)
Definition hello : ChatResponse :=
  {| resp_session_id := "s-1"; reply := "Hello" |}.

Definition restarted : globals :=
  set_sessions
    (<["s-1" := [seed_turn "C1001"; AIMessage (Text "Hello") []]]> (sessions sample))
    sample.

(** The reading of [get_loan_details] under which a stored record with
    the supplied name always yields the loan payload, as the
    specification words it. *)
Definition payload_iff_name_matches : Prop :=
  forall (g : globals) (cid name : string),
    ((exists r p,
         loan_data g !! cid = Some r
         /\ get_loan_details cid name g = (Returned p, g)
         /\ is_loan_payload r p)
     <-> name_matches g cid name)
    /\ (~ name_matches g cid name ->
        get_loan_details cid name g = (Returned no_due_amount, g)).


(** An agent whose model adds nothing: it hands back what it was given. *)
Definition silent_agent (data : gmap string dict) (history : SessionHistory) : invoke_result :=
  InvokeState history.

(** The store after [start_call] with the silent agent: one session,
    holding the seed turn alone. *)
Definition seeded_only : globals :=
  {| loan_data := {[ "C1001" := asha ]};
     sessions := {[ "uuid-1" := [seed_turn "C1001"] ]} |}.


(** * Properties of the tool layer *)

Section ToolFacts.

Implicit Types (g : globals) (r p : dict) (cid name : string).

Lemma ne_str_false (v : option json) (s : string) :
  ne_str v s = false <-> v = Some (JStr s).
Proof.
  destruct v as [[]|]; simpl; try (split; [discriminate | intros [=]]).
  rewrite negb_false_iff, String.eqb_eq. split; [by intros -> | by intros [= ->]].
Qed.

Lemma dict_falsy_lookup r (k : string) (v : json) :
  r !! k = Some v -> dict_falsy r = false.
Proof.
  intros Hk. unfold dict_falsy. apply Nat.eqb_neq.
  apply map_size_non_empty_iff. intros ->. by rewrite lookup_empty in Hk.
Qed.

(** The payload built on the success path, field by field. *)
Lemma loan_payload_fields r (n t d : json) :
  r !! "customer_name" = Some n ->
  r !! "total_due" = Some t ->
  r !! "due_date" = Some d ->
  is_loan_payload r
    (<["customer_name" := n]>
      (<["total_due" := t]>
        (<["due_date" := d]>
          {[ "dpd" := default (JInt 0) (r !! "dpd") ]}))).
Proof.
  intros Hn Ht Hd. unfold is_loan_payload. rewrite Hn, Ht, Hd.
  split; [| by repeat split].
  rewrite !dom_insert_L, dom_singleton_L. set_solver.
Qed.

Lemma get_loan_details_match g cid name r (t d : json) :
  loan_data g !! cid = Some r ->
  r !! "customer_name" = Some (JStr name) ->
  r !! "total_due" = Some t ->
  r !! "due_date" = Some d ->
  get_loan_details cid name g
  = (Returned
       (<["customer_name" := JStr name]>
         (<["total_due" := t]>
           (<["due_date" := d]>
             {[ "dpd" := default (JInt 0) (r !! "dpd") ]}))), g).
Proof.
  intros Hr Hn Ht Hd. unfold get_loan_details, bind, read_loan_data.
  rewrite Hr, (dict_falsy_lookup _ _ _ Hn).
  rewrite (proj2 (ne_str_false _ _) Hn). simpl.
  unfold getitem. by rewrite Hn, Ht, Hd.
Qed.

Lemma get_loan_details_mismatch g cid name :
  ~ name_matches g cid name ->
  get_loan_details cid name g = (Returned no_due_amount, g).
Proof.
  intros Hno. unfold get_loan_details, bind, read_loan_data.
  destruct (loan_data g !! cid) as [r|] eqn:Hr; [| done].
  destruct (dict_falsy r); [done |]. simpl.
  destruct (ne_str (r !! "customer_name") name) eqn:Hne; [done |].
  apply ne_str_false in Hne. destruct Hno. by exists r.
Qed.

(** A record that names the customer but lacks a loan field makes the
    subscript raise. *)
Lemma get_loan_details_key_error g cid name r :
  loan_data g !! cid = Some r ->
  r !! "customer_name" = Some (JStr name) ->
  r !! "total_due" = None ->
  get_loan_details cid name g = (Raised (KeyError "total_due"), g).
Proof.
  intros Hr Hn Ht. unfold get_loan_details, bind, read_loan_data.
  rewrite Hr, (dict_falsy_lookup _ _ _ Hn).
  rewrite (proj2 (ne_str_false _ _) Hn). simpl.
  unfold getitem. by rewrite Hn, Ht.
Qed.

(** C1, amended. For every customer id and name, [get_loan_details]
    returns the loan payload (customer_name, total_due, due_date, dpd) of
    the record if and only if a record is stored for the id, its
    customer_name is exactly the supplied name, and it carries total_due
    and due_date; for every mismatch or missing record it returns the
    payload [{"error": "No due amount found."}]. The globals are left as
    they were. *)
Theorem get_loan_details_payload_iff g cid name :
  ((exists r p,
       loan_data g !! cid = Some r
       /\ get_loan_details cid name g = (Returned p, g)
       /\ is_loan_payload r p)
   <-> (exists r,
          loan_data g !! cid = Some r
          /\ r !! "customer_name" = Some (JStr name)
          /\ has_loan_fields r))
  /\ (~ name_matches g cid name ->
      get_loan_details cid name g = (Returned no_due_amount, g)).
Proof.
  split; [| apply get_loan_details_mismatch].
  split.
  - intros (r & p & Hr & Hrun & Hp). exists r. split; [done |].
    assert (Hfields : has_loan_fields r).
    { destruct Hp as (Hdom & _ & Ht & Hd & _). split.
      - rewrite <- Ht. apply elem_of_dom. rewrite Hdom. set_solver.
      - rewrite <- Hd. apply elem_of_dom. rewrite Hdom. set_solver. }
    split; [| done].
    destruct (r !! "customer_name") as [v|] eqn:Hv.
    + destruct (ne_str (Some v) name) eqn:Hne.
      * assert (Hmis : ~ name_matches g cid name).
        { intros (r2 & Hr2 & Hn2). rewrite Hr in Hr2. injection Hr2 as <-.
          rewrite Hv in Hn2. apply ne_str_false in Hn2. congruence. }
        rewrite (get_loan_details_mismatch _ _ _ Hmis) in Hrun.
        injection Hrun as <-. destruct Hp as (Hdom & _).
        unfold no_due_amount in Hdom. rewrite dom_singleton_L in Hdom.
        assert (Hin : "dpd" ∈ ({[ "error" ]} : gset string))
          by (rewrite Hdom; set_solver).
        apply elem_of_singleton in Hin. discriminate.
      * by apply ne_str_false in Hne.
    + destruct Hp as (Hdom & Hname & _).
      rewrite Hv in Hname.
      assert (Hin : "customer_name" ∈ dom p) by (rewrite Hdom; set_solver).
      apply elem_of_dom in Hin as [x Hx]. congruence.
  - intros (r & Hr & Hn & [[t Ht] [d Hd]]).
    exists r. eexists. split; [done |].
    split; [by apply (get_loan_details_match g cid name r t d) |].
    by apply loan_payload_fields.
Qed.

End ToolFacts.

Lemma sample_record : loan_data sample !! "C1001" = Some asha.
Proof. reflexivity. Qed.

Lemma get_loan_details_payload_iff_witness :
  exists r p,
    loan_data sample !! "C1001" = Some r
    /\ get_loan_details "C1001" "Asha Rao" sample = (Returned p, sample)
    /\ is_loan_payload r p.
Proof.
  apply (get_loan_details_payload_iff sample "C1001" "Asha Rao").
  exists asha. split; [reflexivity |]. split; [reflexivity |].
  split; eexists; reflexivity.
Defined.

(** C1, as worded, fails: a stored record that names the customer but
    holds no [total_due] makes the subscript of line 64 raise, so that
    neither payload is returned. *)
Lemma payload_iff_name_matches_fails : ~ payload_iff_name_matches.
Proof.
  intros Hclaim.
  destruct (Hclaim incomplete "C3003" "Ravi Kumar") as [[_ Hback] _].
  destruct Hback as (r & p & _ & Hrun & _).
  - eexists. split; reflexivity.
  - rewrite (get_loan_details_key_error incomplete "C3003" "Ravi Kumar"
               {[ "customer_name" := JStr "Ravi Kumar" ]}) in Hrun;
      [discriminate | reflexivity | reflexivity | reflexivity].
Qed.

(** The three mismatches of the specification's test plan (wrong name,
    differing case, differing whitespace) and an unknown id. *)
Example get_loan_details_mismatch_variants :
  get_loan_details "C1001" "Ravi Kumar" sample = (Returned no_due_amount, sample)
  /\ get_loan_details "C1001" "asha rao" sample = (Returned no_due_amount, sample)
  /\ get_loan_details "C1001" "Asha Rao " sample = (Returned no_due_amount, sample)
  /\ get_loan_details "C2002" "Asha Rao" sample = (Returned no_due_amount, sample).
Proof. repeat split. Qed.

(** What a lookup computes: [loan_data.get(customer_id, default)]. *)
Lemma get_customer_details_run (g : globals) (cid : string) :
  get_customer_details cid g
  = (Returned (default customer_not_found (loan_data g !! cid)), g).
Proof. reflexivity. Qed.

(** C4, as worded, fails: the lookup of the scenario's customer hands out
    [total_due] and [due_date] along with the name. *)
Lemma names_only_lookup_fails : ~ names_only_lookup.
Proof.
  intros Hclaim.
  destruct (Hclaim sample "C1001" asha sample_record) as (p & Hrun & _ & Htotal & _).
  change (get_customer_details "C1001" sample) with (Returned asha, sample) in Hrun.
  injection Hrun as <-. discriminate Htotal.
Qed.

(** C4, amended. For every customer id present in the record store,
    [get_customer_details] returns the stored record whole and unchanged,
    the name together with every other field it holds; for every customer
    id absent from the store it returns [{"error": "Customer ID not
    found"}]. *)
Theorem get_customer_details_returns_record (g : globals) (cid : string) :
  (forall r : dict,
      loan_data g !! cid = Some r ->
      get_customer_details cid g = (Returned r, g))
  /\ (loan_data g !! cid = None ->
      get_customer_details cid g = (Returned customer_not_found, g)).
Proof.
  rewrite get_customer_details_run.
  split; [intros r Hr | intros Hr]; by rewrite Hr.
Qed.

Lemma get_customer_details_returns_record_witness :
  get_customer_details "C1001" sample = (Returned asha, sample)
  /\ get_customer_details "C2002" sample = (Returned customer_not_found, sample).
Proof.
  split.
  - apply (get_customer_details_returns_record sample "C1001"). reflexivity.
  - apply (get_customer_details_returns_record sample "C2002"). reflexivity.
Defined.

(** C5. For every customer id, [get_customer_details] returns and never
    raises; when the id has no record the value returned is the payload
    [{"error": "Customer ID not found"}]. *)
Theorem get_customer_details_never_raises (g : globals) (cid : string) :
  (exists p : dict, get_customer_details cid g = (Returned p, g))
  /\ (forall e, fst (get_customer_details cid g) <> Raised e)
  /\ (loan_data g !! cid = None ->
      get_customer_details cid g = (Returned customer_not_found, g)).
Proof.
  rewrite get_customer_details_run.
  split; [| split].
  - by eexists.
  - intros e. discriminate.
  - intros Hr. by rewrite Hr.
Qed.

Lemma get_customer_details_never_raises_witness :
  get_customer_details "C2002" sample = (Returned customer_not_found, sample).
Proof.
  apply (get_customer_details_never_raises sample "C2002"). reflexivity.
Defined.

Lemma lookups_pure (cids : list string) (g : globals) :
  exists ps, lookups cids g = (Returned ps, g).
Proof.
  induction cids as [| cid rest [ps IH]]; [by eexists |].
  cbn [lookups]. unfold bind.
  rewrite get_customer_details_run, IH. by eexists.
Qed.

(** C8. [get_customer_details] is idempotent and free of side effects:
    two successive calls with the same customer id return the same
    payload, every call leaves the globals (the record store among them)
    as they were, and after any run of lookups a lookup returns what it
    returned at the start. *)
Theorem get_customer_details_idempotent (g : globals) (cid : string) :
  (exists p : dict,
      (p1 <- get_customer_details cid ;;
       p2 <- get_customer_details cid ;;
       ret (p1, p2)) g = (Returned (p, p), g))
  /\ snd (get_customer_details cid g) = g
  /\ (forall cids : list string,
        snd (lookups cids g) = g
        /\ get_customer_details cid (snd (lookups cids g))
           = get_customer_details cid g).
Proof.
  split; [| split].
  - eexists. unfold bind. by rewrite !get_customer_details_run.
  - by rewrite get_customer_details_run.
  - intros cids. by destruct (lookups_pure cids g) as [ps ->].
Qed.

(** * Properties of the reply extraction *)

Section ReplyFacts.

Variable py_repr : list json -> string.

Lemma first_ai_app (l1 l2 : SessionHistory) :
  first_ai (l1 ++ l2) = from_option Some (first_ai l2) (first_ai l1).
Proof.
  induction l1 as [| m l1 IH]; [done |].
  destruct m; simpl; auto.
Qed.

Lemma first_ai_none (l : SessionHistory) :
  Forall (fun m => is_ai m = false) l -> first_ai l = None.
Proof.
  induction 1 as [| m l Hm _ IH]; [done |].
  destruct m; simpl in *; auto. discriminate.
Qed.

(** Every history either holds no agent turn or splits at its last one. *)
Lemma last_ai_split (history : SessionHistory) :
  Forall (fun m => is_ai m = false) history
  \/ exists pre c tcs post,
       history = pre ++ AIMessage c tcs :: post
       /\ Forall (fun m => is_ai m = false) post.
Proof.
  induction history as [| m history IH]; [left; constructor |].
  destruct IH as [Hnone | (pre & c & tcs & post & -> & Hpost)].
  - destruct (is_ai m) eqn:Hm.
    + right. destruct m; try discriminate.
      by exists [], c, tool_calls, history.
    + left. by constructor.
  - right. by exists (m :: pre), c, tcs, post.
Qed.

(** C7. For every history the reply extraction returns the content (as
    [str] renders it) of the most recent agent turn, the one no agent
    turn follows; for every history with no agent turn it returns the
    fixed string "I'm sorry, I couldn't generate a response.". One of
    the two cases always applies. *)
Theorem extract_last_ai_reply_spec (history : SessionHistory) :
  (forall pre c tcs post,
      history = pre ++ AIMessage c tcs :: post ->
      Forall (fun m => is_ai m = false) post ->
      extract_last_ai_reply py_repr history = py_str py_repr c)
  /\ (Forall (fun m => is_ai m = false) history ->
      extract_last_ai_reply py_repr history = fallback_reply)
  /\ (Forall (fun m => is_ai m = false) history
      \/ exists pre c tcs post,
           history = pre ++ AIMessage c tcs :: post
           /\ Forall (fun m => is_ai m = false) post).
Proof.
  split; [| split].
  - intros pre c tcs post -> Hpost. unfold extract_last_ai_reply.
    rewrite rev_app_distr. simpl. rewrite <- app_assoc, first_ai_app.
    rewrite (first_ai_none (rev post)); [done |].
    by apply List.Forall_rev.
  - intros Hnone. unfold extract_last_ai_reply.
    rewrite first_ai_none; [done |].
    by apply List.Forall_rev.
  - apply last_ai_split.
Qed.

End ReplyFacts.

Lemma extract_last_ai_reply_spec_witness :
  extract_last_ai_reply sample_repr sample_history
  = "Hello, this is Jiya calling from ABC Finance. Am I speaking with Asha Rao?"
  /\ extract_last_ai_reply sample_repr [seed_turn "C1001"] = fallback_reply.
Proof.
  split.
  - apply (proj1 (extract_last_ai_reply_spec sample_repr sample_history)
             (firstn 3 sample_history)
             (Text "Hello, this is Jiya calling from ABC Finance. Am I speaking with Asha Rao?")
             [] []).
    + reflexivity.
    + constructor.
  - apply (extract_last_ai_reply_spec sample_repr [seed_turn "C1001"]).
    repeat constructor.
Defined.

(** * Properties of the call orchestrator *)

Section OrchestratorFacts.

Variable py_repr : list json -> string.
Variable agent_invoke : gmap string dict -> SessionHistory -> invoke_result.
Variable fresh_uuid : string.

Implicit Types (g : globals) (payload : ChatRequest) (sid : string).

Local Abbreviation endpoint := (chat_endpoint py_repr agent_invoke fresh_uuid).

Lemma nonempty_some (o : option string) (v : string) :
  nonempty o = Some v <-> o = Some v /\ v <> EmptyString.
Proof.
  destruct o as [[| a s]|]; simpl; split;
    try discriminate; try (by intros [[=] _]); try (by intros [[= <-] ?]).
  by intros [= <-].
Qed.

Lemma paths_exclusive g payload sid :
  on_new_call_path g payload sid -> on_continuing_path g payload sid -> False.
Proof. intros [Hn | Hs] [Hn' Hs']; congruence. Qed.

Lemma paths_exhaustive g payload sid :
  on_new_call_path g payload sid \/ on_continuing_path g payload sid.
Proof.
  unfold on_new_call_path, on_continuing_path.
  destruct (new_call payload); [by left; left |].
  destruct (stored g sid); [by left; right | by right].
Qed.

(** The four ways out of lines 173-194. *)

Lemma select_history_seed g payload sid (cid : string) :
  on_new_call_path g payload sid ->
  nonempty (customer_id payload) = Some cid ->
  select_history sid payload g = (Returned [seed_turn cid], g).
Proof.
  intros Hpath Hcid. unfold select_history, bind, read_sessions.
  fold (stored g sid).
  replace (new_call payload || list_falsy (stored g sid)) with true.
  - by rewrite Hcid.
  - destruct Hpath as [-> | ->]; [done | by rewrite orb_true_r].
Qed.

Lemma select_history_no_customer g payload sid :
  on_new_call_path g payload sid ->
  absent (customer_id payload) ->
  select_history sid payload g = (Raised customer_id_required, g).
Proof.
  intros Hpath Hcid. unfold select_history, bind, read_sessions.
  fold (stored g sid).
  replace (new_call payload || list_falsy (stored g sid)) with true.
  - unfold absent in Hcid. by rewrite Hcid.
  - destruct Hpath as [-> | ->]; [done | by rewrite orb_true_r].
Qed.

Lemma select_history_append g payload sid (text : string) :
  on_continuing_path g payload sid ->
  nonempty (message payload) = Some text ->
  let h := stored g sid ++ [HumanMessage (Text text)] in
  select_history sid payload g
  = (Returned h, set_sessions (<[sid := h]> (sessions g)) g).
Proof.
  intros [Hnew Hst] Hmsg. unfold select_history, bind, read_sessions.
  fold (stored g sid). rewrite Hnew, Hmsg.
  by destruct (stored g sid).
Qed.

Lemma select_history_no_message g payload sid :
  on_continuing_path g payload sid ->
  absent (message payload) ->
  select_history sid payload g = (Raised message_required, g).
Proof.
  intros [Hnew Hst] Hmsg. unfold select_history, bind, read_sessions.
  fold (stored g sid). rewrite Hnew.
  destruct (stored g sid); [done |]. simpl.
  unfold absent in Hmsg. by rewrite Hmsg.
Qed.

(** The agent is invoked once, with no round cap handed to it, and its
    failure is passed on as it is: no reply is made up in its place. *)
Lemma run_agent_with_history_run (h : SessionHistory) g :
  run_agent_with_history agent_invoke h g
  = match agent_invoke (loan_data g) h with
    | InvokeState messages => (Returned messages, g)
    | InvokeRaised name => (Raised (LibraryError name), g)
    end.
Proof.
  unfold run_agent_with_history, bind, read_loan_data.
  by destruct (agent_invoke (loan_data g) h).
Qed.

(** What the second half of the endpoint computes. *)
Lemma run_and_store_run sid (h : SessionHistory) g :
  run_and_store py_repr agent_invoke sid h g
  = match agent_invoke (loan_data g) h with
    | InvokeState messages =>
        (Returned {| resp_session_id := sid;
                     reply := extract_last_ai_reply py_repr messages |},
         set_sessions (<[sid := messages]> (sessions g)) g)
    | InvokeRaised name => (Raised (LibraryError name), g)
    end.
Proof.
  unfold run_and_store, bind at 1, run_agent_with_history, bind at 1, read_loan_data.
  by destruct (agent_invoke (loan_data g) h).
Qed.

Lemma run_and_store_not_refused sid (h : SessionHistory) g :
  ~ invalid_request (fst (run_and_store py_repr agent_invoke sid h g)).
Proof.
  rewrite run_and_store_run.
  destruct (agent_invoke _ _); intros [d Hd]; discriminate.
Qed.

Lemma chat_endpoint_run payload g :
  let sid := or_else (session_id payload) fresh_uuid in
  endpoint payload g
  = match select_history sid payload g with
    | (Returned h, g1) => run_and_store py_repr agent_invoke sid h g1
    | (Raised e, g1) => (Raised e, g1)
    end.
Proof. reflexivity. Qed.

(** A request is refused exactly when the history selection raises. *)
Lemma chat_endpoint_refused payload g :
  let sid := or_else (session_id payload) fresh_uuid in
  invalid_request (fst (endpoint payload g))
  <-> exists detail,
        select_history sid payload g = (Raised (HTTPException 400 detail), g).
Proof.
  simpl. rewrite chat_endpoint_run. simpl.
  set (sid := or_else (session_id payload) fresh_uuid).
  destruct (paths_exhaustive g payload sid) as [Hp | Hp].
  - destruct (nonempty (customer_id payload)) as [cid |] eqn:Hc.
    + rewrite (select_history_seed _ _ _ _ Hp Hc).
      split; [intros H; by apply run_and_store_not_refused in H |].
      intros [d Hd]. discriminate.
    + rewrite (select_history_no_customer _ _ _ Hp Hc).
      split; intros _; by eexists.
  - destruct (nonempty (message payload)) as [text |] eqn:Hm.
    + rewrite (select_history_append _ _ _ _ Hp Hm).
      split; [intros H; by apply run_and_store_not_refused in H |].
      intros [d Hd]. discriminate.
    + rewrite (select_history_no_message _ _ _ Hp Hm).
      split; intros _; by eexists.
Qed.


(** C10. When the chat endpoint fails with HTTP 400, for a missing
    [customer_id] on the new-call path or a missing [message] on the
    continuing path, the globals are left exactly as they were: no
    session entry is created and no stored conversation is modified. *)
Theorem invalid_request_leaves_sessions payload g :
  invalid_request (fst (endpoint payload g)) ->
  snd (endpoint payload g) = g
  /\ sessions (snd (endpoint payload g)) = sessions g.
Proof.
  intros Hbad.
  apply chat_endpoint_refused in Hbad as [d Hd].
  rewrite chat_endpoint_run. simpl in *. by rewrite Hd.
Qed.


(** C2, amended. For every request carrying a session id that is not in
    the session store, with [new_call] unset, whatever its message, the
    endpoint takes the new-call path. With a [customer_id] present it
    behaves as the start of a call: the history handed to the agent is
    the single seed turn, the message is not appended, and the request
    is not refused. With [customer_id] absent it fails with HTTP 400,
    "customer_id is required to start a new call.", and the store is
    left as it was. *)
Theorem unknown_session_starts_new_call payload g sid :
  session_id payload = Some sid ->
  sid <> EmptyString ->
  sessions g !! sid = None ->
  new_call payload = false ->
  (forall cid : string,
      customer_id payload = Some cid ->
      cid <> EmptyString ->
      select_history sid payload g = (Returned [seed_turn cid], g)
      /\ endpoint payload g
         = run_and_store py_repr agent_invoke sid [seed_turn cid] g
      /\ ~ invalid_request (fst (endpoint payload g)))
  /\ (absent (customer_id payload) ->
      endpoint payload g = (Raised customer_id_required, g)).
Proof.
  intros Hsid Hne Hnone Hnew.
  assert (Hres : or_else (session_id payload) fresh_uuid = sid).
  { unfold or_else. by rewrite (proj2 (nonempty_some _ _) (conj Hsid Hne)). }
  assert (Hp : on_new_call_path g payload sid).
  { right. unfold stored. by rewrite Hnone. }
  split.
  - intros cid Hcid Hcne.
    pose proof (select_history_seed _ _ _ _ Hp
                  (proj2 (nonempty_some _ _) (conj Hcid Hcne))) as Hsel.
    split; [done |].
    assert (Hrun : endpoint payload g
                   = run_and_store py_repr agent_invoke sid [seed_turn cid] g).
    { rewrite chat_endpoint_run, Hres. by rewrite Hsel. }
    split; [done |]. rewrite Hrun. apply run_and_store_not_refused.
  - intros Habs. rewrite chat_endpoint_run, Hres.
    by rewrite (select_history_no_customer _ _ _ Hp Habs).
Qed.

End OrchestratorFacts.

(** C2, as worded, fails: a message for an unknown session that names no
    customer is refused with HTTP 400. *)
Lemma unknown_session_never_refused_fails : ~ unknown_session_never_refused.
Proof.
  intros Hclaim.
  apply (Hclaim sample_repr echo_agent "uuid-1" sample stray_message "s-9");
    try reflexivity; try discriminate.
  exists "customer_id is required to start a new call.". reflexivity.
Qed.

Lemma unknown_session_starts_new_call_witness :
  select_history "s-9" stray_message_with_id sample
  = (Returned [seed_turn "C1001"], sample)
  /\ chat_endpoint sample_repr echo_agent "uuid-1" stray_message sample
     = (Raised customer_id_required, sample).
Proof.
  split.
  - apply (unknown_session_starts_new_call sample_repr echo_agent "uuid-1"
             stray_message_with_id sample "s-9");
      try reflexivity; discriminate.
  - apply (unknown_session_starts_new_call sample_repr echo_agent "uuid-1"
             stray_message sample "s-9");
      try reflexivity; discriminate.
Defined.


Lemma invalid_request_leaves_sessions_witness :
  snd (chat_endpoint sample_repr echo_agent "uuid-1" say_nothing sample) = sample.
Proof.
  apply (invalid_request_leaves_sessions sample_repr echo_agent "uuid-1"
           say_nothing sample).
  exists "Either new_call must be true or a message must be provided.".
  reflexivity.
Defined.


(** With the silent agent, starting a call leaves the seed turn alone in
    the store. *)
Example start_call_silent :
  chat_endpoint sample_repr silent_agent "uuid-1" start_call
    {| loan_data := loan_data seeded_only; sessions := ∅ |}
  = (Returned {| resp_session_id := "uuid-1"; reply := fallback_reply |},
     seeded_only).
Proof. vm_compute. reflexivity. Qed.


(** The two paths on the sample store: a call started without a session
    id is filed under the fresh identifier, and a message for a stored
    session extends its conversation. *)
Example start_call_runs :
  chat_endpoint sample_repr echo_agent "uuid-1" start_call sample
  = (Returned {| resp_session_id := "uuid-1"; reply := "Hello" |},
     set_sessions
       (<["uuid-1" := [seed_turn "C1001"; AIMessage (Text "Hello") []]]>
          (sessions sample))
       sample).
Proof. reflexivity. Qed.

Example say_yes_runs :
  chat_endpoint sample_repr echo_agent "uuid-1" say_yes sample
  = (Returned {| resp_session_id := "s-1"; reply := "Hello" |},
     set_sessions
       (<["s-1" := sample_history
                   ++ [HumanMessage (Text "yes"); AIMessage (Text "Hello") []]]>
          (sessions sample))
       sample).
Proof. vm_compute. reflexivity. Qed.


(** * Further properties of the tool layer *)

Lemma get_loan_details_key_error_due (g : globals) (cid name : string) (r : dict) (t : json) :
  loan_data g !! cid = Some r ->
  r !! "customer_name" = Some (JStr name) ->
  r !! "total_due" = Some t ->
  r !! "due_date" = None ->
  get_loan_details cid name g = (Raised (KeyError "due_date"), g).
Proof.
  intros Hr Hn Ht Hd. unfold get_loan_details, bind, read_loan_data.
  rewrite Hr, (dict_falsy_lookup _ _ _ Hn).
  rewrite (proj2 (ne_str_false _ _) Hn). simpl.
  unfold getitem. by rewrite Hn, Ht, Hd.
Qed.

(** The record stored for [cid], when it names [name], decides between
    the payload and the two subscript failures. *)
Lemma get_loan_details_named (g : globals) (cid name : string) (r : dict) :
  loan_data g !! cid = Some r ->
  r !! "customer_name" = Some (JStr name) ->
  get_loan_details cid name g
  = match r !! "total_due", r !! "due_date" with
    | None, _ => (Raised (KeyError "total_due"), g)
    | Some _, None => (Raised (KeyError "due_date"), g)
    | Some t, Some d =>
        (Returned
           (<["customer_name" := JStr name]>
             (<["total_due" := t]>
               (<["due_date" := d]>
                 {[ "dpd" := default (JInt 0) (r !! "dpd") ]}))), g)
    end.
Proof.
  intros Hr Hn.
  destruct (r !! "total_due") as [t |] eqn:Ht.
  - destruct (r !! "due_date") as [d |] eqn:Hd.
    + by apply get_loan_details_match.
    + by apply (get_loan_details_key_error_due g cid name r t).
  - by apply (get_loan_details_key_error g cid name r).
Qed.

Lemma name_matches_dec (g : globals) (cid name : string) :
  name_matches g cid name \/ ~ name_matches g cid name.
Proof.
  destruct (loan_data g !! cid) as [r |] eqn:Hr.
  - destruct (ne_str (r !! "customer_name") name) eqn:Hne.
    + right. intros (r' & Hr' & Hn). rewrite Hr in Hr'. injection Hr' as <-.
      apply ne_str_false in Hn. congruence.
    + left. exists r. split; [done |]. by apply ne_str_false.
  - right. intros (r' & Hr' & _). congruence.
Qed.

Lemma get_loan_details_globals (g : globals) (cid name : string) :
  snd (get_loan_details cid name g) = g.
Proof.
  destruct (name_matches_dec g cid name) as [(r & Hr & Hn) | Hno].
  - rewrite (get_loan_details_named g cid name r Hr Hn).
    by destruct (r !! "total_due"), (r !! "due_date").
  - by rewrite get_loan_details_mismatch.
Qed.

(** X1. [get_loan_details] raises exactly when the stored record names
    the customer but lacks a loan field: [KeyError] for [total_due] when
    that is missing, for [due_date] when only that is missing. It raises
    nothing else, and the globals are as before in every case. *)
Theorem get_loan_details_raises_iff (g : globals) (cid name : string) (e : exn) :
  (fst (get_loan_details cid name g) = Raised e
   <-> exists r,
         loan_data g !! cid = Some r
         /\ r !! "customer_name" = Some (JStr name)
         /\ ((r !! "total_due" = None /\ e = KeyError "total_due")
             \/ (is_Some (r !! "total_due") /\ r !! "due_date" = None
                 /\ e = KeyError "due_date")))
  /\ snd (get_loan_details cid name g) = g.
Proof.
  split; [| apply get_loan_details_globals].
  split.
  - intros Hrun.
    destruct (name_matches_dec g cid name) as [(r & Hr & Hn) | Hno].
    + exists r. split; [done |]. split; [done |].
      rewrite (get_loan_details_named g cid name r Hr Hn) in Hrun.
      destruct (r !! "total_due") as [t |]; [| left; split; [done | by injection Hrun]].
      destruct (r !! "due_date") as [d |]; [discriminate |].
      right. split; [by eexists |]. split; [done | by injection Hrun].
    + by rewrite get_loan_details_mismatch in Hrun.
  - intros (r & Hr & Hn & [[Ht ->] | ([t Ht] & Hd & ->)]);
      rewrite (get_loan_details_named g cid name r Hr Hn).
    + by rewrite Ht.
    + by rewrite Ht, Hd.
Qed.

Lemma run_tool_globals (i : invocation) (g : globals) :
  snd (run_tool i g) = g.
Proof.
  destruct i as [cid | cid name | cid date]; unfold run_tool, bind.
  - by rewrite get_customer_details_run.
  - pose proof (get_loan_details_globals g cid name) as Hg.
    destruct (get_loan_details cid name g) as [[d | e] g']; simpl in *; by subst.
  - done.
Qed.

(** X2. No tool writes: after any run of calls to the three tools, in
    any order and with any arguments, lookups that fail and subscripts
    that raise included, the globals are what they were, so a tool call
    made afterwards gives what it would have given at the start. Nothing
    is kept of a recorded commitment. *)
Theorem tools_never_write (calls : list invocation) (g : globals) :
  after_tools calls g = g
  /\ (forall i : invocation, run_tool i (after_tools calls g) = run_tool i g).
Proof.
  assert (Hsame : after_tools calls g = g).
  { unfold after_tools. induction calls as [| i calls IH]; [done |].
    simpl. by rewrite run_tool_globals. }
  split; [done |]. intros i. by rewrite Hsame.
Qed.

Lemma get_loan_details_raises_iff_witness :
  fst (get_loan_details "C3003" "Ravi Kumar" incomplete)
  = Raised (KeyError "total_due").
Proof.
  apply (get_loan_details_raises_iff incomplete "C3003" "Ravi Kumar").
  eexists. split; [reflexivity |]. split; [reflexivity |].
  left. split; reflexivity.
Defined.

(** * Further properties of the call orchestrator *)

Section SessionFacts.

Variable py_repr : list json -> string.
Variable agent_invoke : gmap string dict -> SessionHistory -> invoke_result.
Variable fresh_uuid : string.

Implicit Types (g : globals) (payload : ChatRequest) (sid : string).

Local Abbreviation endpoint := (chat_endpoint py_repr agent_invoke fresh_uuid).
Local Abbreviation finish := (run_and_store py_repr agent_invoke).

Lemma chat_endpoint_course payload g :
  course py_repr agent_invoke fresh_uuid g payload
    (or_else (session_id payload) fresh_uuid).
Proof.
  set (sid := or_else (session_id payload) fresh_uuid).
  pose proof (chat_endpoint_run py_repr agent_invoke fresh_uuid payload g) as Hrun.
  simpl in Hrun. fold sid in Hrun.
  destruct (paths_exhaustive g payload sid) as [Hp | Hp].
  - destruct (nonempty (customer_id payload)) as [cid |] eqn:Hc.
    + pose proof (select_history_seed _ _ _ _ Hp Hc) as Hsel.
      rewrite Hsel in Hrun. by eapply Seeded.
    + rewrite (select_history_no_customer _ _ _ Hp Hc) in Hrun.
      by apply RefusedNoCustomer.
  - destruct (nonempty (message payload)) as [text |] eqn:Hm.
    + pose proof (select_history_append _ _ _ _ Hp Hm) as Hsel. simpl in Hsel.
      rewrite Hsel in Hrun. by eapply Appended.
    + rewrite (select_history_no_message _ _ _ Hp Hm) in Hrun.
      by apply RefusedNoMessage.
Qed.

(** What a finished second half tells about the agent. *)
Lemma run_and_store_returned sid (h : SessionHistory) g (resp : ChatResponse) g' :
  finish sid h g = (Returned resp, g') ->
  exists messages,
    agent_invoke (loan_data g) h = InvokeState messages
    /\ resp = {| resp_session_id := sid;
                 reply := extract_last_ai_reply py_repr messages |}
    /\ g' = set_sessions (<[sid := messages]> (sessions g)) g.
Proof.
  rewrite run_and_store_run.
  destruct (agent_invoke (loan_data g) h) as [messages | name]; [| discriminate].
  intros [= <- <-]. by exists messages.
Qed.

Lemma run_and_store_raised sid (h : SessionHistory) g (e : exn) g' :
  finish sid h g = (Raised e, g') ->
  exists name,
    agent_invoke (loan_data g) h = InvokeRaised name
    /\ e = LibraryError name /\ g' = g.
Proof.
  rewrite run_and_store_run.
  destruct (agent_invoke (loan_data g) h) as [messages | name]; [discriminate |].
  intros [= <- <-]. by exists name.
Qed.

Lemma run_and_store_frame sid (h : SessionHistory) g :
  let g' := snd (finish sid h g) in
  loan_data g' = loan_data g
  /\ (forall sid', sid' <> sid -> sessions g' !! sid' = sessions g !! sid')
  /\ (forall sid', is_Some (sessions g !! sid') -> is_Some (sessions g' !! sid')).
Proof.
  simpl. rewrite run_and_store_run.
  destruct (agent_invoke (loan_data g) h) as [messages | name]; simpl; [| done].
  split; [done |]. split.
  - intros sid' Hne. by rewrite lookup_insert_ne.
  - intros sid' Hsome. rewrite lookup_insert. by case_decide.
Qed.

Lemma stored_continuing g payload sid :
  on_continuing_path g payload sid ->
  sessions g !! sid = Some (stored g sid).
Proof.
  intros [_ Hst]. unfold stored in *.
  by destruct (sessions g !! sid).
Qed.

Lemma snoc_differs (h : SessionHistory) (m : BaseMessage) : h ++ [m] <> h.
Proof.
  intros Heq. apply (f_equal length) in Heq.
  rewrite length_app in Heq. simpl in Heq. lia.
Qed.

(** X3. Whatever a request leads to (a reply, a refusal, a failure of
    the agent), it leaves the records and every session but its own as
    they were, and it never removes a session: there is no expiry. *)
Theorem chat_endpoint_frame payload g :
  let sid := or_else (session_id payload) fresh_uuid in
  let g' := snd (endpoint payload g) in
  loan_data g' = loan_data g
  /\ (forall sid', sid' <> sid -> sessions g' !! sid' = sessions g !! sid')
  /\ (forall sid', is_Some (sessions g !! sid') -> is_Some (sessions g' !! sid')).
Proof.
  simpl. set (sid := or_else (session_id payload) fresh_uuid).
  destruct (chat_endpoint_course payload g) as
    [_ _ -> | cid _ _ _ -> | _ _ -> | text _ _ _ ->]; fold sid; try done.
  - apply run_and_store_frame.
  - set (h := stored g sid ++ [HumanMessage (Text text)]).
    destruct (run_and_store_frame sid h (set_sessions (<[sid := h]> (sessions g)) g))
      as (Hdata & Hother & Hkeep).
    simpl in *. split; [done |]. split.
    + intros sid' Hne. rewrite (Hother sid' Hne). by rewrite lookup_insert_ne.
    + intros sid' Hsome. apply Hkeep. rewrite lookup_insert. by case_decide.
Qed.

(** X4. When the endpoint returns, the response carries the resolved
    session id (the one sent when it is not empty, the fresh one
    otherwise), the store holds under that id exactly the messages the
    agent returned for the history handed to it, and the reply is the one
    extracted from that stored conversation. *)
Theorem chat_endpoint_returned payload g (resp : ChatResponse) g' :
  endpoint payload g = (Returned resp, g') ->
  let sid := or_else (session_id payload) fresh_uuid in
  resp_session_id resp = sid
  /\ exists h g1 messages,
       select_history sid payload g = (Returned h, g1)
       /\ agent_invoke (loan_data g) h = InvokeState messages
       /\ sessions g' !! sid = Some messages
       /\ reply resp = extract_last_ai_reply py_repr messages.
Proof.
  intros Hrun. simpl. set (sid := or_else (session_id payload) fresh_uuid).
  destruct (chat_endpoint_course payload g) as
    [_ _ Hc | cid _ _ Hsel Hc | _ _ Hc | text _ _ Hsel Hc];
    fold sid in Hc; try fold sid in Hsel; rewrite Hc in Hrun; try discriminate.
  - apply run_and_store_returned in Hrun as (messages & Hagent & -> & ->).
    split; [done |]. exists [seed_turn cid], g, messages.
    repeat (split; [done |]). simpl. split; [apply lookup_insert_eq | done].
  - apply run_and_store_returned in Hrun as (messages & Hagent & -> & ->).
    split; [done |]. eexists _, _, messages. split; [exact Hsel |].
    split; [exact Hagent |]. simpl. split; [apply lookup_insert_eq | done].
Qed.

(** X5. When the agent fails, the endpoint raises its failure. A request
    on the new-call path then leaves the globals as they were; one on the
    continuing path leaves the caller's message appended to the stored
    conversation, the append having been made in place before the agent
    ran. *)
Theorem agent_failure_keeps_message payload g (name : string) g' :
  endpoint payload g = (Raised (LibraryError name), g') ->
  let sid := or_else (session_id payload) fresh_uuid in
  (on_new_call_path g payload sid -> g' = g)
  /\ (on_continuing_path g payload sid ->
      exists text,
        nonempty (message payload) = Some text
        /\ sessions g' !! sid = Some (stored g sid ++ [HumanMessage (Text text)])
        /\ sessions g' !! sid <> sessions g !! sid).
Proof.
  intros Hrun. simpl. set (sid := or_else (session_id payload) fresh_uuid).
  destruct (chat_endpoint_course payload g) as
    [Hp _ Hc | cid Hp _ _ Hc | Hp _ Hc | text Hp Hm _ Hc];
    fold sid in Hc, Hp; rewrite Hc in Hrun; try discriminate.
  - apply run_and_store_raised in Hrun as (n & _ & _ & ->).
    split; [done |]. intros Hq. destruct (paths_exclusive _ _ _ Hp Hq).
  - apply run_and_store_raised in Hrun as (n & _ & _ & ->).
    split; [intros Hq; destruct (paths_exclusive _ _ _ Hq Hp) |].
    intros _. exists text. split; [done |]. simpl.
    rewrite lookup_insert_eq. split; [done |].
    rewrite (stored_continuing _ _ _ Hp). intros [= Heq].
    by apply snoc_differs in Heq.
Qed.

(** X6. Each path reads its own field only: on the new-call path the
    message plays no part, on the continuing path the customer id plays
    none, so two requests that differ only there are served alike. *)
Theorem paths_read_one_field (p1 p2 : ChatRequest) g :
  session_id p1 = session_id p2 ->
  new_call p1 = new_call p2 ->
  let sid := or_else (session_id p1) fresh_uuid in
  (on_new_call_path g p1 sid ->
   customer_id p1 = customer_id p2 ->
   endpoint p1 g = endpoint p2 g)
  /\ (on_continuing_path g p1 sid ->
      message p1 = message p2 ->
      endpoint p1 g = endpoint p2 g).
Proof.
  intros Hsid Hnew. simpl.
  rewrite !(chat_endpoint_run py_repr agent_invoke fresh_uuid). simpl.
  rewrite <- Hsid. set (sid := or_else (session_id p1) fresh_uuid).
  split.
  - intros Hp Hcid.
    assert (Hp2 : on_new_call_path g p2 sid).
    { unfold on_new_call_path in *. by rewrite <- Hnew. }
    destruct (nonempty (customer_id p1)) as [cid |] eqn:Hc.
    + rewrite (select_history_seed _ p1 _ _ Hp Hc).
      rewrite Hcid in Hc. by rewrite (select_history_seed _ p2 _ _ Hp2 Hc).
    + rewrite (select_history_no_customer _ p1 _ Hp Hc).
      unfold absent in *. rewrite Hcid in Hc.
      by rewrite (select_history_no_customer _ p2 _ Hp2 Hc).
  - intros Hp Hmsg.
    assert (Hp2 : on_continuing_path g p2 sid).
    { unfold on_continuing_path in *. by rewrite <- Hnew. }
    destruct (nonempty (message p1)) as [text |] eqn:Hm.
    + pose proof (select_history_append _ p1 _ _ Hp Hm) as H1.
      rewrite Hmsg in Hm.
      pose proof (select_history_append _ p2 _ _ Hp2 Hm) as H2.
      simpl in H1, H2. by rewrite H1, H2.
    + rewrite (select_history_no_message _ p1 _ Hp Hm).
      unfold absent in *. rewrite Hmsg in Hm.
      by rewrite (select_history_no_message _ p2 _ Hp2 Hm).
Qed.

(** X7. A conversation carries over from one request to the next: when a
    request has returned and the next one names its session id and brings
    a message, the history handed to the agent is the messages the agent
    returned the time before, followed by the new message as a human
    turn. Should the agent have returned no message at all, the next
    request is taken for the start of a call. *)
Theorem next_turn_extends_conversation (p1 p2 : ChatRequest) g
    (r1 : ChatResponse) g1 (text : string) :
  endpoint p1 g = (Returned r1, g1) ->
  session_id p2 = Some (resp_session_id r1) ->
  resp_session_id r1 <> EmptyString ->
  new_call p2 = false ->
  message p2 = Some text ->
  text <> EmptyString ->
  exists messages,
    sessions g1 !! resp_session_id r1 = Some messages
    /\ reply r1 = extract_last_ai_reply py_repr messages
    /\ (messages <> [] ->
        endpoint p2 g1
        = finish (resp_session_id r1)
            (messages ++ [HumanMessage (Text text)])
            (set_sessions
               (<[resp_session_id r1 := messages ++ [HumanMessage (Text text)]]>
                  (sessions g1)) g1))
    /\ (messages = [] -> on_new_call_path g1 p2 (resp_session_id r1)).
Proof.
  intros Hrun Hsid Hne Hnew Hmsg Htext.
  assert (Hstored : exists messages,
             sessions g1 !! resp_session_id r1 = Some messages
             /\ reply r1 = extract_last_ai_reply py_repr messages).
  { set (sid := or_else (session_id p1) fresh_uuid).
    destruct (chat_endpoint_course p1 g) as
      [_ _ Hc | cid _ _ _ Hc | _ _ Hc | t _ _ _ Hc];
      fold sid in Hc; rewrite Hc in Hrun; try discriminate;
      apply run_and_store_returned in Hrun as (messages & _ & -> & ->);
      exists messages; simpl; by rewrite lookup_insert_eq. }
  destruct Hstored as (messages & Hlook & Hreply).
  exists messages. split; [done |]. split; [done |].
  assert (Hres : or_else (session_id p2) fresh_uuid = resp_session_id r1).
  { unfold or_else. by rewrite (proj2 (nonempty_some _ _) (conj Hsid Hne)). }
  assert (Hst : stored g1 (resp_session_id r1) = messages).
  { unfold stored. by rewrite Hlook. }
  split.
  - intros Hnonempty.
    assert (Hp : on_continuing_path g1 p2 (resp_session_id r1)).
    { split; [done | by rewrite Hst]. }
    pose proof (select_history_append _ _ _ _ Hp
                  (proj2 (nonempty_some _ _) (conj Hmsg Htext))) as Hsel.
    simpl in Hsel. rewrite Hst in Hsel.
    rewrite (chat_endpoint_run py_repr agent_invoke fresh_uuid). simpl.
    by rewrite Hres, Hsel.
  - intros Hempty. right. by rewrite Hst.
Qed.

(** X9. With an agent that hands back what it was given followed by its
    own messages, no request ever leaves an empty conversation in the
    store: if none is empty before, none is empty after. *)
Theorem sessions_stay_nonempty payload g :
  extending agent_invoke ->
  sessions_nonempty g ->
  sessions_nonempty (snd (endpoint payload g)).
Proof.
  intros Hext Hinv.
  set (sid := or_else (session_id payload) fresh_uuid).
  assert (Hfinish : forall h g0,
             h <> [] -> sessions_nonempty g0 ->
             sessions_nonempty (snd (finish sid h g0))).
  { intros h g0 Hh Hg0. rewrite run_and_store_run.
    destruct (agent_invoke (loan_data g0) h) as [messages | name] eqn:Hagent;
      [| done].
    intros sid' h' Hlook. simpl in Hlook.
    rewrite lookup_insert in Hlook. case_decide; [| by eapply Hg0].
    injection Hlook as <-. destruct (Hext _ _ _ Hagent) as [k ->].
    by destruct h. }
  destruct (chat_endpoint_course payload g) as
    [_ _ -> | cid _ _ _ -> | _ _ -> | text _ _ _ ->]; fold sid; try done.
  - by apply Hfinish.
  - apply Hfinish; [by destruct (stored g sid) |].
    intros sid' h' Hlook. simpl in Hlook.
    rewrite lookup_insert in Hlook. case_decide; [| by eapply Hinv].
    injection Hlook as <-. by destruct (stored g sid).
Qed.

(** X10. With such an agent a stored conversation only grows: on the
    continuing path what was stored is a prefix of what is stored
    afterwards, whatever the outcome, and whenever the endpoint returns,
    the history that was handed to the agent is a prefix of the
    conversation then stored. *)
Theorem conversation_grows payload g :
  extending agent_invoke ->
  let sid := or_else (session_id payload) fresh_uuid in
  (on_continuing_path g payload sid ->
   stored g sid `prefix_of` stored (snd (endpoint payload g)) sid)
  /\ (forall resp g' h g1,
        endpoint payload g = (Returned resp, g') ->
        select_history sid payload g = (Returned h, g1) ->
        h `prefix_of` stored g' sid).
Proof.
  intros Hext. simpl. set (sid := or_else (session_id payload) fresh_uuid).
  assert (Hfinish : forall h g0,
             sessions g0 !! sid = Some h ->
             h `prefix_of` stored (snd (finish sid h g0)) sid).
  { intros h g0 Hh. rewrite run_and_store_run. unfold stored.
    destruct (agent_invoke (loan_data g0) h) as [messages | name] eqn:Hagent;
      simpl.
    - rewrite lookup_insert_eq. simpl. by eapply Hext.
    - by rewrite Hh. }
  destruct (chat_endpoint_course payload g) as
    [Hp _ Hc | cid Hp _ Hsel Hc | Hp _ Hc | text Hp _ Hsel Hc];
    fold sid in Hc, Hp; try fold sid in Hsel; rewrite Hc; split;
    try (intros Hq; by destruct (paths_exclusive _ _ _ Hp Hq));
    try (intros resp g' h g1 Hrun; discriminate Hrun).
  - intros resp g' h g1 Hrun Hsel'. rewrite Hsel in Hsel'.
    injection Hsel' as <- <-.
    apply run_and_store_returned in Hrun as (messages & Hagent & _ & ->).
    unfold stored. simpl. rewrite lookup_insert_eq. simpl. by eapply Hext.
  - done.
  - intros _. etrans; [| apply Hfinish; simpl; apply lookup_insert_eq].
    by apply prefix_app_r.
  - intros resp g' h g1 Hrun Hsel'. rewrite Hsel in Hsel'.
    injection Hsel' as <- <-.
    apply run_and_store_returned in Hrun as (messages & Hagent & _ & ->).
    unfold stored. simpl. rewrite lookup_insert_eq. simpl. by eapply Hext.
Qed.

End SessionFacts.

(** * Further properties of the reply extraction *)

Section ReplyComposition.

Variable py_repr : list json -> string.

Lemma first_ai_none_iff (l : SessionHistory) :
  first_ai l = None <-> existsb is_ai l = false.
Proof.
  induction l as [| m l IH]; [done |].
  destruct m; simpl; try exact IH. split; discriminate.
Qed.

Lemma existsb_is_ai_rev (l : SessionHistory) :
  existsb is_ai (rev l) = existsb is_ai l.
Proof.
  induction l as [| m l IH]; [done |].
  simpl. rewrite existsb_app, IH. simpl.
  rewrite orb_false_r. apply orb_comm.
Qed.

(** X8. The reply of a conversation that went on: when the turns added
    hold an agent turn, the reply is the one extracted from them alone;
    when they hold none (tool results, human turns, or nothing), the
    reply is the one of the conversation before, said again. *)
Theorem extract_last_ai_reply_app (h t : SessionHistory) :
  extract_last_ai_reply py_repr (h ++ t)
  = if existsb is_ai t
    then extract_last_ai_reply py_repr t
    else extract_last_ai_reply py_repr h.
Proof.
  unfold extract_last_ai_reply. rewrite rev_app_distr, first_ai_app.
  destruct (existsb is_ai t) eqn:Ht.
  - destruct (first_ai (rev t)) as [c |] eqn:Hc; [done |].
    apply first_ai_none_iff in Hc. rewrite existsb_is_ai_rev in Hc. congruence.
  - rewrite <- existsb_is_ai_rev in Ht. apply first_ai_none_iff in Ht.
    by rewrite Ht.
Qed.

End ReplyComposition.

Lemma echo_agent_extending : extending echo_agent.
Proof. intros data h messages [= <-]. by eexists. Qed.

Lemma sample_nonempty : sessions_nonempty sample.
Proof.
  intros sid h Hlook. simpl in Hlook.
  apply lookup_singleton_Some in Hlook as [_ <-]. discriminate.
Qed.

Lemma restart_call_runs :
  chat_endpoint sample_repr echo_agent "uuid-1" restart_call sample
  = (Returned hello, restarted).
Proof. vm_compute. reflexivity. Qed.

Lemma chat_endpoint_returned_witness :
  resp_session_id hello = "s-1"
  /\ exists h g1 messages,
       select_history "s-1" restart_call sample = (Returned h, g1)
       /\ echo_agent (loan_data sample) h = InvokeState messages
       /\ sessions restarted !! "s-1" = Some messages
       /\ reply hello = extract_last_ai_reply sample_repr messages.
Proof.
  exact (chat_endpoint_returned sample_repr echo_agent "uuid-1"
           restart_call sample hello restarted restart_call_runs).
Defined.

Lemma agent_failure_keeps_message_witness :
  exists text,
    nonempty (message say_yes) = Some text
    /\ sessions (snd (chat_endpoint sample_repr failing_agent "uuid-1" say_yes sample))
         !! "s-1"
       = Some (stored sample "s-1" ++ [HumanMessage (Text text)])
    /\ sessions (snd (chat_endpoint sample_repr failing_agent "uuid-1" say_yes sample))
         !! "s-1"
       <> sessions sample !! "s-1".
Proof.
  apply (agent_failure_keeps_message sample_repr failing_agent "uuid-1"
           say_yes sample "APIConnectionError").
  - reflexivity.
  - split; [reflexivity | discriminate].
Defined.

Lemma paths_read_one_field_witness :
  chat_endpoint sample_repr echo_agent "uuid-1" say_yes sample
  = chat_endpoint sample_repr echo_agent "uuid-1" say_yes_with_id sample.
Proof.
  apply (paths_read_one_field sample_repr echo_agent "uuid-1"
           say_yes say_yes_with_id sample); try reflexivity.
  split; [reflexivity | discriminate].
Defined.

Lemma next_turn_extends_conversation_witness :
  exists messages,
    sessions restarted !! "s-1" = Some messages
    /\ reply hello = extract_last_ai_reply sample_repr messages
    /\ (messages <> [] ->
        chat_endpoint sample_repr echo_agent "uuid-1" say_yes restarted
        = run_and_store sample_repr echo_agent "s-1"
            (messages ++ [HumanMessage (Text "yes")])
            (set_sessions
               (<["s-1" := messages ++ [HumanMessage (Text "yes")]]>
                  (sessions restarted)) restarted))
    /\ (messages = [] -> on_new_call_path restarted say_yes "s-1").
Proof.
  apply (next_turn_extends_conversation sample_repr echo_agent "uuid-1"
           restart_call say_yes sample hello restarted "yes" restart_call_runs);
    try reflexivity; discriminate.
Defined.

Lemma sessions_stay_nonempty_witness :
  sessions_nonempty
    (snd (chat_endpoint sample_repr echo_agent "uuid-1" say_yes sample)).
Proof.
  apply (sessions_stay_nonempty sample_repr echo_agent "uuid-1" say_yes sample).
  - exact echo_agent_extending.
  - exact sample_nonempty.
Defined.

Lemma conversation_grows_witness :
  stored sample "s-1"
  `prefix_of`
  stored (snd (chat_endpoint sample_repr echo_agent "uuid-1" say_yes sample)) "s-1".
Proof.
  apply (conversation_grows sample_repr echo_agent "uuid-1" say_yes sample
           echo_agent_extending).
  split; [reflexivity | discriminate].
Defined.

(** * How the two lookups go together *)

(** X11. The loan payload tells nothing the plain lookup had not told:
    whenever [get_loan_details] returns something other than its error
    payload, [get_customer_details] for the same id returns a record with
    that very name, total and due date (and the same [dpd] when it has
    one), with no name asked for. *)
Theorem loan_details_within_customer_details
    (g g' : globals) (cid name : string) (p : dict) :
  get_loan_details cid name g = (Returned p, g') ->
  p <> no_due_amount ->
  exists r : dict,
    get_customer_details cid g = (Returned r, g)
    /\ r !! "customer_name" = Some (JStr name)
    /\ p !! "customer_name" = r !! "customer_name"
    /\ p !! "total_due" = r !! "total_due"
    /\ p !! "due_date" = r !! "due_date"
    /\ (forall v, r !! "dpd" = Some v -> p !! "dpd" = Some v).
Proof.
  intros Hrun Herr.
  destruct (name_matches_dec g cid name) as [(r & Hr & Hn) | Hno].
  - exists r. rewrite get_customer_details_run, Hr. split; [done |].
    split; [done |].
    rewrite (get_loan_details_named g cid name r Hr Hn) in Hrun.
    destruct (r !! "total_due") as [t |] eqn:Ht; [| discriminate].
    destruct (r !! "due_date") as [d |] eqn:Hd; [| discriminate].
    injection Hrun as <- <-.
    destruct (loan_payload_fields r (JStr name) t d Hn Ht Hd)
      as (_ & Hpn & Hpt & Hpd & Hdpd).
    rewrite Hpn, Hpt, Hpd, Ht, Hd. repeat (split; [done |]).
    intros v Hv. by rewrite Hdpd, Hv.
  - rewrite (get_loan_details_mismatch g cid name Hno) in Hrun.
    injection Hrun as <- <-. done.
Qed.

Lemma loan_details_within_customer_details_witness :
  exists r : dict,
    get_customer_details "C1001" sample = (Returned r, sample)
    /\ r !! "customer_name" = Some (JStr "Asha Rao")
    /\ fst (get_loan_details "C1001" "Asha Rao" sample)
       = Returned (<["customer_name" := JStr "Asha Rao"]>
                    (<["total_due" := JInt 4500]>
                      (<["due_date" := JStr "2024-05-01"]>
                        {[ "dpd" := JInt 0 ]}))).
Proof.
  destruct (loan_details_within_customer_details sample sample "C1001" "Asha Rao"
              (<["customer_name" := JStr "Asha Rao"]>
                (<["total_due" := JInt 4500]>
                  (<["due_date" := JStr "2024-05-01"]>
                    {[ "dpd" := JInt 0 ]}))))
    as (r & Hr & Hn & _).
  - reflexivity.
  - intros Heq. apply (f_equal (fun d : dict => d !! "dpd")) in Heq.
    vm_compute in Heq. discriminate Heq.
  - exists r. split; [exact Hr |]. split; [exact Hn | reflexivity].
Defined.

(** X12. The name that [get_customer_details] hands out is the name
    [get_loan_details] asks for: when the lookup returns a record with a
    customer name and the loan fields, a call of [get_loan_details] with
    that id and that name returns the record's loan payload. *)
Theorem looked_up_name_opens_loan_details
    (g : globals) (cid name : string) (r : dict) :
  get_customer_details cid g = (Returned r, g) ->
  r !! "customer_name" = Some (JStr name) ->
  has_loan_fields r ->
  exists p : dict,
    get_loan_details cid name g = (Returned p, g) /\ is_loan_payload r p.
Proof.
  intros Hrun Hn [[t Ht] [d Hd]].
  rewrite get_customer_details_run in Hrun.
  destruct (loan_data g !! cid) as [r' |] eqn:Hr; simpl in Hrun.
  - injection Hrun as ->. eexists.
    split; [by apply (get_loan_details_match g cid name r t d) |].
    by apply loan_payload_fields.
  - injection Hrun as <-. discriminate Hn.
Qed.

Lemma looked_up_name_opens_loan_details_witness :
  exists p : dict,
    get_loan_details "C1001" "Asha Rao" sample = (Returned p, sample)
    /\ is_loan_payload asha p.
Proof.
  apply (looked_up_name_opens_loan_details sample "C1001" "Asha Rao" asha).
  - reflexivity.
  - reflexivity.
  - split; eexists; reflexivity.
Defined.
